(** * The i18n facade of golib, in Rocq

    The repository holds two versions of one small Go package, [i18n]:

    - version 1 ([src/i18n/i18n.go]): interface [MarkerAPI] with the methods
      [G] and [NG], the package variable [instance], and the functions
      [Initialise], [G] and [NG];
    - version 2 ([src/unnamed/part_000]): interface [API] with the extra
      method [CurrentLocale], the same package variable, and the functions
      [Initialise], [CurrentLocale], [G] and [NG].

    The embedding is shallow.  The package variable is a field of an explicit
    package state and every Go function is a computation in a state monad
    over that state.  A Go interface is a class of methods over the type of
    the values that implement it; a value of the interface type is [None]
    for the nil interface and [Some] such value otherwise.  A method is Go
    code of the same process: it is a computation on the whole package
    state, and may call the exported [Initialise] itself. *)

From Stdlib Require Import String Ascii ZArith List Bool Lia.
Import ListNotations.

Open Scope string_scope.

(** ** Go values *)

(** Go's [int].  The package only passes [n] on or compares it with [1]; no
    arithmetic is done on it, so no wrap-around has to be written out and
    every machine integer is a [Z]. *)
Definition int : Type := Z.

(** Go's [error] interface, seen through its [Error() string] method; the nil
    error is [None] of [option error]. *)
Definition error : Type := string.

(** ** Computations with state *)

Definition Eff (S A : Type) : Type := S -> A * S.

Definition ret {S A : Type} (a : A) : Eff S A := fun s => (a, s).

Definition bind {S A B : Type} (m : Eff S A) (k : A -> Eff S B) : Eff S B :=
  fun s => let (a, s') := m s in k a s'.

Declare Scope eff_scope.
Delimit Scope eff_scope with eff.
Notation "x <- m ;; k" := (bind m (fun x => k))
  (at level 61, m at next level, right associativity) : eff_scope.
Notation "m ;;; k" := (bind m (fun _ => k))
  (at level 61, right associativity) : eff_scope.

(** ** The package state

    [instance] is the package variable [var instance API]; [Prov] is the type
    of the values that implement the interface, the providers.  [world] is
    the rest of the process: whatever the providers and the operating
    system's locale detection read or change. *)

Section Package.
Variables Prov World : Type.

Record Pkg : Type := mkPkg { instance : option Prov; world : World }.

(** Reading the package variable. *)
Definition load_instance : Eff Pkg (option Prov) :=
  fun pk => (instance pk, pk).

(** The assignment [instance = v]. *)
Definition store_instance (v : option Prov) : Eff Pkg unit :=
  fun pk => (tt, mkPkg v (world pk)).

(** A call into a library that the package imports.  Go has no import
    cycles, so the library cannot name this package: the call runs on the
    world and cannot reach the package variable. *)
Definition extern {A : Type} (m : Eff World A) : Eff Pkg A :=
  fun pk => let (a, w) := m (world pk) in (a, mkPkg (instance pk) w).

(** The state at process start: the zero value of an interface variable is
    nil. *)
Definition start (w : World) : Pkg := mkPkg None w.

(** A computation that leaves the package variable as it found it. *)
Definition keeps_instance {A : Type} (m : Eff Pkg A) : Prop :=
  forall pk : Pkg, instance (snd (m pk)) = instance pk.

(** Whether a provider is registered. *)
Definition registered (pk : Pkg) : bool :=
  match instance pk with
  | Some _ => true
  | None => false
  end.
End Package.

Arguments mkPkg {Prov World} _ _.
Arguments instance {Prov World} _.
Arguments world {Prov World} _.
Arguments load_instance {Prov World} _.
Arguments store_instance {Prov World} _ _.
Arguments extern {Prov World A} _ _.
Arguments start {Prov World} _.
Arguments keeps_instance {Prov World A} _.
Arguments registered {Prov World} _.

(** ** Version 1: [src/i18n/i18n.go] *)

Module V1.

(** [type MarkerAPI interface { G(msgid string) string;
                                NG(msgid, msgidPlural string, n int) string }]
    The first argument of a method is its receiver. *)
Class MarkerAPI (Prov World : Type) : Type := mkMarkerAPI {
  MarkerAPI_G : Prov -> string -> Eff (Pkg Prov World) string;
  MarkerAPI_NG : Prov -> string -> string -> int -> Eff (Pkg Prov World) string
}.

Section Facade.
Variables Prov World : Type.
Context {M : MarkerAPI Prov World}.

Definition State : Type := Pkg Prov World.

(** [func Initialise(markers MarkerAPI) { instance = markers }] *)
Definition Initialise (markers : option Prov) : Eff State unit :=
  store_instance markers.

(** [func G(msgid string) string] *)
Definition G (msgid : string) : Eff State string :=
  (inst <- load_instance ;;
   match inst with
   | None => ret msgid
   | Some m => MarkerAPI_G m msgid
   end)%eff.

(** [func NG(msgid string, msgidPlural string, n int) string] *)
Definition NG (msgid msgidPlural : string) (n : int) : Eff State string :=
  (inst <- load_instance ;;
   match inst with
   | None =>
       if (n =? 1)%Z
       then ret msgid          (* Singular *)
       else ret msgidPlural    (* Plural *)
   | Some m => MarkerAPI_NG m msgid msgidPlural n
   end)%eff.

(** Calls a client of the package can make, what each one returns, and a
    client as a sequence of calls. *)
Inductive call : Type :=
| CallInitialise (markers : option Prov)
| CallG (msgid : string)
| CallNG (msgid msgidPlural : string) (n : int).

Inductive reply : Type :=
| Done
| Returned (s : string).

Definition exec (c : call) : Eff State reply :=
  match c with
  | CallInitialise markers => (Initialise markers ;;; ret Done)%eff
  | CallG msgid => (s <- G msgid ;; ret (Returned s))%eff
  | CallNG msgid msgidPlural n =>
      (s <- NG msgid msgidPlural n ;; ret (Returned s))%eff
  end.

Fixpoint run (cs : list call) : Eff State (list reply) :=
  match cs with
  | [] => ret []
  | c :: cs' => (r <- exec c ;; rs <- run cs' ;; ret (r :: rs))%eff
  end.

(** A provider none of whose methods assigns the package variable. *)
Definition quiet (P : Prov) : Prop :=
  (forall msgid, keeps_instance (MarkerAPI_G P msgid))
  /\ (forall msgid msgidPlural n,
         keeps_instance (MarkerAPI_NG P msgid msgidPlural n)).
End Facade.

Arguments State : clear implicits.
Arguments Initialise {Prov World} _ _.
Arguments G {Prov World M} _ _.
Arguments NG {Prov World M} _ _ _ _.
Arguments call : clear implicits.
Arguments CallInitialise {Prov} _.
Arguments CallG {Prov} _.
Arguments CallNG {Prov} _ _ _.
Arguments exec {Prov World M} _ _.
Arguments run {Prov World M} _ _.
Arguments quiet {Prov World M} _.
End V1.

(** ** The locale library used by version 2

    Version 2 imports [github.com/Xuanwo/go-locale].  The library is not part
    of the repository; the package uses three things from it, which are taken
    here as an interface:

    - [locale.Detect()], which returns a tag and an error and consults the
      operating system, hence runs on the world;
    - the method [Base()] of a tag, which returns two values, the second of
      which the package drops ([base, _ := tag.Base()]);
    - the method [String()] of a base. *)

Class LocaleLib (World : Type) : Type := mkLocaleLib {
  Tag : Type;
  Base : Type;
  Confidence : Type;
  locale_Detect : Eff World (Tag * option error);
  Tag_Base : Tag -> Base * Confidence;
  Base_String : Base -> string
}.

(** ** Version 2: [src/unnamed/part_000] *)

Module V2.

(** [type API interface { CurrentLocale() string; G(msgid string) string;
                          NG(msgid, msgidPlural string, n int) string }]
    The first argument of a method is its receiver. *)
Class API (Prov World : Type) : Type := mkAPI {
  API_CurrentLocale : Prov -> Eff (Pkg Prov World) string;
  API_G : Prov -> string -> Eff (Pkg Prov World) string;
  API_NG : Prov -> string -> string -> int -> Eff (Pkg Prov World) string
}.

Section Facade.
Variables Prov World : Type.
Context {A : API Prov World} {L : LocaleLib World}.

Definition State : Type := Pkg Prov World.

(** [func Initialise(api API) { instance = api }] *)
Definition Initialise (api : option Prov) : Eff State unit :=
  store_instance api.

(** [func CurrentLocale() string] *)
Definition CurrentLocale : Eff State string :=
  (inst <- load_instance ;;
   match inst with
   | None =>
       r <- extern locale_Detect ;;
       let (tag, err) := r in
       match err with
       | Some _ =>
           (* Unable to obtain locale from OS so pick a sensible fallback *)
           ret "en"
       | None =>
           (* Return the detected default *)
           let (base, _) := Tag_Base tag in
           ret (Base_String base)
       end
   | Some api =>
       (* Provided by the interface implementation instead *)
       API_CurrentLocale api
   end)%eff.

(** [func G(msgid string) string] *)
Definition G (msgid : string) : Eff State string :=
  (inst <- load_instance ;;
   match inst with
   | None => ret msgid
   | Some api => API_G api msgid
   end)%eff.

(** [func NG(msgid string, msgidPlural string, n int) string] *)
Definition NG (msgid msgidPlural : string) (n : int) : Eff State string :=
  (inst <- load_instance ;;
   match inst with
   | None => ret msgid
   | Some api => API_NG api msgid msgidPlural n
   end)%eff.

Inductive call : Type :=
| CallInitialise (api : option Prov)
| CallCurrentLocale
| CallG (msgid : string)
| CallNG (msgid msgidPlural : string) (n : int).

Inductive reply : Type :=
| Done
| Returned (s : string).

Definition exec (c : call) : Eff State reply :=
  match c with
  | CallInitialise api => (Initialise api ;;; ret Done)%eff
  | CallCurrentLocale => (s <- CurrentLocale ;; ret (Returned s))%eff
  | CallG msgid => (s <- G msgid ;; ret (Returned s))%eff
  | CallNG msgid msgidPlural n =>
      (s <- NG msgid msgidPlural n ;; ret (Returned s))%eff
  end.

Fixpoint run (cs : list call) : Eff State (list reply) :=
  match cs with
  | [] => ret []
  | c :: cs' => (r <- exec c ;; rs <- run cs' ;; ret (r :: rs))%eff
  end.

(** A provider none of whose methods assigns the package variable. *)
Definition quiet (P : Prov) : Prop :=
  keeps_instance (API_CurrentLocale P)
  /\ (forall msgid, keeps_instance (API_G P msgid))
  /\ (forall msgid msgidPlural n,
         keeps_instance (API_NG P msgid msgidPlural n)).
End Facade.

Arguments State : clear implicits.
Arguments Initialise {Prov World} _ _.
Arguments CurrentLocale {Prov World A L} _.
Arguments G {Prov World A} _ _.
Arguments NG {Prov World A} _ _ _ _.
Arguments call : clear implicits.
Arguments CallInitialise {Prov} _.
Arguments CallCurrentLocale {Prov}.
Arguments CallG {Prov} _.
Arguments CallNG {Prov} _ _ _.
Arguments exec {Prov World A L} _ _.
Arguments run {Prov World A L} _ _.
Arguments quiet {Prov World A} _.
End V2.

(** ** A client that holds the provider itself

    What a sequence of lookups returns when each is made on a provider [P]
    directly, without the package in between.  It is the yardstick for
    delegation. *)

Module Direct.
Section Direct.
Variables Prov World : Type.

Definition lookup1 (c : V1.call Prov) : bool :=
  match c with
  | V1.CallInitialise _ => false
  | _ => true
  end.

Definition ask1 {M : V1.MarkerAPI Prov World} (P : Prov) (c : V1.call Prov)
  : Eff (V1.State Prov World) V1.reply :=
  match c with
  | V1.CallInitialise _ => ret V1.Done
  | V1.CallG msgid => (s <- V1.MarkerAPI_G P msgid ;; ret (V1.Returned s))%eff
  | V1.CallNG msgid msgidPlural n =>
      (s <- V1.MarkerAPI_NG P msgid msgidPlural n ;; ret (V1.Returned s))%eff
  end.

Fixpoint asks1 {M : V1.MarkerAPI Prov World} (P : Prov)
  (cs : list (V1.call Prov)) : Eff (V1.State Prov World) (list V1.reply) :=
  match cs with
  | [] => ret []
  | c :: cs' => (r <- ask1 P c ;; rs <- asks1 P cs' ;; ret (r :: rs))%eff
  end.

Definition lookup2 (c : V2.call Prov) : bool :=
  match c with
  | V2.CallInitialise _ => false
  | _ => true
  end.

Definition ask2 {A : V2.API Prov World} (P : Prov) (c : V2.call Prov)
  : Eff (V2.State Prov World) V2.reply :=
  match c with
  | V2.CallInitialise _ => ret V2.Done
  | V2.CallCurrentLocale =>
      (s <- V2.API_CurrentLocale P ;; ret (V2.Returned s))%eff
  | V2.CallG msgid => (s <- V2.API_G P msgid ;; ret (V2.Returned s))%eff
  | V2.CallNG msgid msgidPlural n =>
      (s <- V2.API_NG P msgid msgidPlural n ;; ret (V2.Returned s))%eff
  end.

Fixpoint asks2 {A : V2.API Prov World} (P : Prov)
  (cs : list (V2.call Prov)) : Eff (V2.State Prov World) (list V2.reply) :=
  match cs with
  | [] => ret []
  | c :: cs' => (r <- ask2 P c ;; rs <- asks2 P cs' ;; ret (r :: rs))%eff
  end.
End Direct.

Arguments lookup1 {Prov} _.
Arguments ask1 {Prov World M} _ _ _.
Arguments asks1 {Prov World M} _ _ _.
Arguments lookup2 {Prov} _.
Arguments ask2 {Prov World A} _ _ _.
Arguments asks2 {Prov World A} _ _ _.
End Direct.

(** ** Whole clients

    Yardsticks for what the package answers while nothing is registered, for
    a client all of whose lookups find a provider registered, and for reading
    a client of version 1 as a client of version 2. *)

Module Client.
Section Client.
Variables Prov World : Type.

(** The answers of version 1 with translation disabled. *)
Definition offline1 (c : V1.call Prov) : V1.reply :=
  match c with
  | V1.CallInitialise _ => V1.Done
  | V1.CallG msgid => V1.Returned msgid
  | V1.CallNG msgid msgidPlural n =>
      V1.Returned (if (n =? 1)%Z then msgid else msgidPlural)
  end.

(** The message lookups of version 2, [G] and [NG], and their answers with
    translation disabled. *)
Definition message2 (c : V2.call Prov) : bool :=
  match c with
  | V2.CallG _ | V2.CallNG _ _ _ => true
  | _ => false
  end.

Definition offline2 (c : V2.call Prov) : V2.reply :=
  match c with
  | V2.CallG msgid => V2.Returned msgid
  | V2.CallNG msgid _ _ => V2.Returned msgid
  | _ => V2.Done
  end.

(** Whether each lookup of the client [cs], run from [pk], finds a provider
    registered at the moment it is made. *)
Fixpoint served1 {M : V1.MarkerAPI Prov World} (cs : list (V1.call Prov))
  (pk : V1.State Prov World) : bool :=
  match cs with
  | [] => true
  | c :: cs' =>
      (negb (Direct.lookup1 c) || registered pk)
      && served1 cs' (snd (V1.exec c pk))
  end.

Fixpoint served2 {A : V2.API Prov World} {L : LocaleLib World}
  (cs : list (V2.call Prov)) (pk : V2.State Prov World) : bool :=
  match cs with
  | [] => true
  | c :: cs' =>
      (negb (Direct.lookup2 c) || registered pk)
      && served2 cs' (snd (V2.exec c pk))
  end.

(** The providers of version 1 made into providers of version 2 by giving
    them a [CurrentLocale] method, and the calls and replies of version 1
    read as those of version 2. *)
Definition upgrade (loc : Prov -> Eff (Pkg Prov World) string)
  (M : V1.MarkerAPI Prov World) : V2.API Prov World :=
  V2.mkAPI Prov World loc V1.MarkerAPI_G V1.MarkerAPI_NG.

Definition upgrade_call (c : V1.call Prov) : V2.call Prov :=
  match c with
  | V1.CallInitialise markers => V2.CallInitialise markers
  | V1.CallG msgid => V2.CallG msgid
  | V1.CallNG msgid msgidPlural n => V2.CallNG msgid msgidPlural n
  end.

Definition upgrade_reply (r : V1.reply) : V2.reply :=
  match r with
  | V1.Done => V2.Done
  | V1.Returned s => V2.Returned s
  end.
End Client.

Arguments offline1 {Prov} _.
Arguments message2 {Prov} _.
Arguments offline2 {Prov} _.
Arguments served1 {Prov World M} _ _.
Arguments served2 {Prov World A L} _ _.
Arguments upgrade {Prov World} _ _.
Arguments upgrade_call {Prov} _.
End Client.

(** ** A locale library after the specification *)

Module SpecLocale.

(** Modelled from the spec: the text of a locale tag, which the imported
    library parses.  Subtags are set apart by [-] ([en-ZA] in the
    specification) or [_] ([en_ZA] in the comment above [CurrentLocale]). *)
Definition separator (c : ascii) : bool :=
  ((c =? "-") || (c =? "_"))%char.

(** The text before the first separator, and the subtags after it. *)
Fixpoint split_tag (s : string) : string * list string :=
  match s with
  | EmptyString => (EmptyString, [])
  | String c s' =>
      let (hd, tl) := split_tag s' in
      if separator c then (EmptyString, hd :: tl) else (String c hd, tl)
  end.

(** A subtag: text without a separator in it. *)
Fixpoint plain (s : string) : bool :=
  match s with
  | EmptyString => true
  | String c s' => negb (separator c) && plain s'
  end.

(** Modelled from the spec: the tag type of the imported library.  A tag is
    structured: its language subtag and the subtags after it. *)
Record tag : Type := mkTag { language : string; subtags : list string }.

Definition parse (s : string) : tag :=
  let (hd, tl) := split_tag s in mkTag hd tl.

Inductive confidence : Type := No | Low | High | Exact.

(** Modelled from the spec: the method [Base()] of the imported library's
    tag.  The base of a tag is its leading language subtag; a tag without
    one has the undetermined base, and the second result says how sure the
    base is. *)
Definition base (t : tag) : option string * confidence :=
  match language t with
  | EmptyString => (None, No)
  | l => (Some l, Exact)
  end.

(** Modelled from the spec: the method [String()] of the imported library's
    base, the base-language code as text; the undetermined base is written
    [und], as in BCP 47. *)
Definition base_string (b : option string) : string :=
  match b with
  | Some l => l
  | None => "und"
  end.

(** Modelled from the spec: the locale detector and its tag type, which
    belong to an imported library and are not in the repository.  The
    specification asks of them a detection that yields a tag or a failure,
    and a tag whose base is its leading language subtag ([en] for [en-ZA]).
    The detection itself is left open, as a computation on the world. *)
Definition lib {World : Type}
  (detect : Eff World (tag * option error)) : LocaleLib World :=
  {| Tag := tag;
     Base := option string;
     Confidence := confidence;
     locale_Detect := detect;
     Tag_Base := base;
     Base_String := base_string |}.

(** Detectors with a fixed outcome. *)
Definition detects {World : Type} (text : string)
  : Eff World (tag * option error) :=
  ret (parse text, None).

Definition fails {World : Type} (msg : error)
  : Eff World (tag * option error) :=
  ret (mkTag "" [], Some msg).
End SpecLocale.

(** ** Stub providers

    The world of the stubs is the list of message ids looked up so far, most
    recent first, so that a delegated call is seen to have run. *)

Module Stub.
Definition World : Type := list string.

(** The providers of the stub program. *)
Inductive prov : Type := Bang | Query | Leaver.

Definition tell (mark : string) (msgid : string)
  : Eff (Pkg prov World) string :=
  fun pk => (msgid ++ mark, mkPkg (instance pk) (msgid :: world pk)).

(** [Bang] is the provider of the specification's scenario, [G(x) = x + "!"].
    [Query] appends ["?"] and always picks the plural.  [Leaver] answers like
    [Bang], but its [G] first calls [i18n.Initialise(nil)]. *)
#[global] Instance table1 : V1.MarkerAPI prov World :=
  {| V1.MarkerAPI_G P msgid :=
       match P with
       | Bang => tell "!" msgid
       | Query => tell "?" msgid
       | Leaver => (V1.Initialise None ;;; tell "!" msgid)%eff
       end;
     V1.MarkerAPI_NG P s p n :=
       match P with
       | Query => tell "?" p
       | _ => if (n =? 1)%Z then tell "!" s else tell "!" p
       end |}.

#[global] Instance table2 : V2.API prov World :=
  {| V2.API_CurrentLocale P :=
       match P with
       | Query => tell "?" "fr"
       | _ => tell "!" "en_ZA"
       end;
     V2.API_G P msgid :=
       match P with
       | Bang => tell "!" msgid
       | Query => tell "?" msgid
       | Leaver => (V2.Initialise None ;;; tell "!" msgid)%eff
       end;
     V2.API_NG P s p n :=
       match P with
       | Query => tell "?" p
       | _ => if (n =? 1)%Z then tell "!" s else tell "!" p
       end |}.

(** Clients that only make lookups. *)
Definition lookups1 : list (V1.call prov) :=
  [V1.CallG "Hello"; V1.CallNG "file" "files" 1%Z].

Definition lookups2 : list (V2.call prov) :=
  [V2.CallG "Hello"; V2.CallCurrentLocale; V2.CallNG "file" "files" 1%Z].

Definition hello_twice1 : list (V1.call prov) :=
  [V1.CallG "Hello"; V1.CallG "Hello"].

Definition hello_twice2 : list (V2.call prov) :=
  [V2.CallG "Hello"; V2.CallG "Hello"].

(** The two packages at process start, nothing looked up yet. *)
Definition fresh1 : V1.State prov World := start [].
Definition fresh2 : V2.State prov World := start [].
End Stub.

(** * Properties *)

(** ** The state monad *)

Lemma bind_ret_l {S A B : Type} (a : A) (k : A -> Eff S B) (s : S) :
  bind (ret a) k s = k a s.
Proof. reflexivity. Qed.

Lemma bind_assoc {S A B C : Type}
  (m : Eff S A) (k : A -> Eff S B) (h : B -> Eff S C) (s : S) :
  bind (bind m k) h s = bind m (fun a => bind (k a) h) s.
Proof. unfold bind. destruct (m s) as [a s']. reflexivity. Qed.

Lemma pkg_eta {Prov World : Type} (pk : Pkg Prov World) :
  mkPkg (instance pk) (world pk) = pk.
Proof. destruct pk. reflexivity. Qed.

(** A library call that does nothing leaves the state alone. *)
Lemma extern_ret {Prov World A : Type} (a : A) (pk : Pkg Prov World) :
  extern (ret a) pk = (a, pk).
Proof. unfold extern, ret. now rewrite pkg_eta. Qed.

(** A library call never assigns the package variable. *)
Lemma extern_keeps_instance {Prov World A : Type} (m : Eff World A) :
  keeps_instance (@extern Prov World A m).
Proof. intros pk. unfold extern. now destruct (m (world pk)). Qed.

(** A computation that keeps the package variable still keeps it when its
    result is post-processed. *)
Lemma keeps_instance_map {Prov World A B : Type}
  (m : Eff (Pkg Prov World) A) (f : A -> B) :
  keeps_instance m -> keeps_instance (bind m (fun a => ret (f a))).
Proof.
  intros Hm pk. specialize (Hm pk). unfold bind.
  now destruct (m pk) as [a pk1].
Qed.

(** Step through a call on a state whose package variable is known by [H]. *)
Ltac step_call H :=
  cbv [bind load_instance ret];
  cbv beta iota; rewrite H; cbv beta iota; rewrite ?H.

(** ** Version 1, one call *)

Section V1Calls.
Variables Prov World : Type.
Context {M : V1.MarkerAPI Prov World}.
Implicit Types (pk : V1.State Prov World) (P : Prov).

Lemma Initialise1_eq pk markers :
  V1.Initialise markers pk = (tt, mkPkg markers (world pk)).
Proof. reflexivity. Qed.

Lemma G1_nil pk msgid :
  instance pk = None -> V1.G msgid pk = (msgid, pk).
Proof. intros Hnil. unfold V1.G. now step_call Hnil. Qed.

Lemma G1_some pk P msgid :
  instance pk = Some P -> V1.G msgid pk = V1.MarkerAPI_G P msgid pk.
Proof. intros Hreg. unfold V1.G. now step_call Hreg. Qed.

Lemma NG1_nil pk s p n :
  instance pk = None ->
  V1.NG s p n pk = (if (n =? 1)%Z then s else p, pk).
Proof.
  intros Hnil. unfold V1.NG. step_call Hnil.
  now destruct (n =? 1)%Z.
Qed.

Lemma NG1_some pk P s p n :
  instance pk = Some P -> V1.NG s p n pk = V1.MarkerAPI_NG P s p n pk.
Proof. intros Hreg. unfold V1.NG. now step_call Hreg. Qed.
End V1Calls.

(** ** Version 2, one call *)

Section V2Calls.
Variables Prov World : Type.
Context {A : V2.API Prov World} {L : LocaleLib World}.
Implicit Types (pk : V2.State Prov World) (P : Prov).

Lemma Initialise2_eq pk api :
  V2.Initialise api pk = (tt, mkPkg api (world pk)).
Proof. reflexivity. Qed.

Lemma G2_nil pk msgid :
  instance pk = None -> V2.G msgid pk = (msgid, pk).
Proof. intros Hnil. unfold V2.G. now step_call Hnil. Qed.

Lemma G2_some pk P msgid :
  instance pk = Some P -> V2.G msgid pk = V2.API_G P msgid pk.
Proof. intros Hreg. unfold V2.G. now step_call Hreg. Qed.

Lemma NG2_nil pk s p n :
  instance pk = None -> V2.NG s p n pk = (s, pk).
Proof. intros Hnil. unfold V2.NG. now step_call Hnil. Qed.

Lemma NG2_some pk P s p n :
  instance pk = Some P -> V2.NG s p n pk = V2.API_NG P s p n pk.
Proof. intros Hreg. unfold V2.NG. now step_call Hreg. Qed.

(** The three ways through [CurrentLocale]. *)
Lemma CurrentLocale_nil pk :
  instance pk = None ->
  V2.CurrentLocale pk =
  let (r, w) := locale_Detect (world pk) in
  let (tag, err) := r in
  (match err with
   | Some _ => "en"
   | None => Base_String (fst (Tag_Base tag))
   end, mkPkg None w).
Proof.
  intros Hnil. unfold V2.CurrentLocale. step_call Hnil. unfold extern.
  rewrite Hnil.
  destruct (locale_Detect (world pk)) as [[tag [e|]] w]; cbn.
  - reflexivity.
  - now destruct (Tag_Base tag).
Qed.

Lemma CurrentLocale_some pk P :
  instance pk = Some P -> V2.CurrentLocale pk = V2.API_CurrentLocale P pk.
Proof. intros Hreg. unfold V2.CurrentLocale. now step_call Hreg. Qed.
End V2Calls.

(** ** Clients: sequences of calls *)

Section V1Runs.
Variables Prov World : Type.
Context {M : V1.MarkerAPI Prov World}.
Implicit Types (pk : V1.State Prov World) (P : Prov).

Lemma run1_cons c cs pk :
  V1.run (c :: cs) pk =
  let (r, pk1) := V1.exec c pk in
  let (rs, pk2) := V1.run cs pk1 in (r :: rs, pk2).
Proof.
  cbn [V1.run]. unfold bind. destruct (V1.exec c pk) as [r pk1].
  now destruct (V1.run cs pk1).
Qed.

Lemma exec1_Initialise markers pk :
  V1.exec (V1.CallInitialise markers) pk =
  (V1.Done, mkPkg markers (world pk)).
Proof. reflexivity. Qed.

(** A lookup with a provider registered is the provider's own method. *)
Lemma exec1_registered P c pk :
  Direct.lookup1 c = true ->
  instance pk = Some P ->
  V1.exec c pk = Direct.ask1 P c pk.
Proof.
  destruct c as [markers | msgid | s p n]; cbn [Direct.lookup1];
    intros Hc Hreg; try discriminate; cbn [V1.exec Direct.ask1]; unfold bind.
  - now rewrite (G1_some _ _ pk P msgid Hreg).
  - now rewrite (NG1_some _ _ pk P s p n Hreg).
Qed.

(** A lookup with nothing registered is the fallback, and changes nothing. *)
Lemma exec1_unregistered c pk :
  Direct.lookup1 c = true ->
  instance pk = None ->
  V1.exec c pk = (Client.offline1 c, pk).
Proof.
  destruct c as [markers | msgid | s p n]; cbn [Direct.lookup1];
    intros Hc Hnil; try discriminate; cbn [V1.exec Client.offline1];
    unfold bind.
  - now rewrite (G1_nil _ _ pk msgid Hnil).
  - now rewrite (NG1_nil _ _ pk s p n Hnil).
Qed.

(** The methods of a quiet provider, called directly, keep the package
    variable. *)
Lemma ask1_quiet P c :
  V1.quiet P -> keeps_instance (Direct.ask1 P c).
Proof.
  intros [HG HNG]. destruct c as [markers | msgid | s p n]; cbn [Direct.ask1].
  - intros pk. reflexivity.
  - apply keeps_instance_map, HG.
  - apply keeps_instance_map, HNG.
Qed.

(** While a quiet provider is registered, a client that only makes lookups
    sees the provider's own answers. *)
Lemma run1_quiet P cs : forall pk,
  V1.quiet P ->
  forallb Direct.lookup1 cs = true ->
  instance pk = Some P ->
  V1.run cs pk = Direct.asks1 P cs pk.
Proof.
  induction cs as [| c cs IH]; intros pk Hq Hcs Hreg.
  - reflexivity.
  - cbn [forallb] in Hcs. apply andb_prop in Hcs as [Hc Hcs].
    rewrite run1_cons, (exec1_registered P c pk Hc Hreg).
    cbn [Direct.asks1]. unfold bind.
    pose proof (ask1_quiet P c Hq pk) as Hk.
    destruct (Direct.ask1 P c pk) as [r pk1]. cbn [snd] in Hk.
    rewrite (IH pk1 Hq Hcs (eq_trans Hk Hreg)).
    now destruct (Direct.asks1 P cs pk1).
Qed.
End V1Runs.

Section V2Runs.
Variables Prov World : Type.
Context {A : V2.API Prov World} {L : LocaleLib World}.
Implicit Types (pk : V2.State Prov World) (P : Prov).

Lemma run2_cons c cs pk :
  V2.run (c :: cs) pk =
  let (r, pk1) := V2.exec c pk in
  let (rs, pk2) := V2.run cs pk1 in (r :: rs, pk2).
Proof.
  cbn [V2.run]. unfold bind. destruct (V2.exec c pk) as [r pk1].
  now destruct (V2.run cs pk1).
Qed.

Lemma exec2_Initialise api pk :
  V2.exec (V2.CallInitialise api) pk = (V2.Done, mkPkg api (world pk)).
Proof. reflexivity. Qed.

Lemma exec2_registered P c pk :
  Direct.lookup2 c = true ->
  instance pk = Some P ->
  V2.exec c pk = Direct.ask2 P c pk.
Proof.
  destruct c as [api | | msgid | s p n]; cbn [Direct.lookup2];
    intros Hc Hreg; try discriminate; cbn [V2.exec Direct.ask2]; unfold bind.
  - now rewrite (CurrentLocale_some _ _ pk P Hreg).
  - now rewrite (G2_some _ _ pk P msgid Hreg).
  - now rewrite (NG2_some _ _ pk P s p n Hreg).
Qed.

Lemma exec2_unregistered c pk :
  Client.message2 c = true ->
  instance pk = None ->
  V2.exec c pk = (Client.offline2 c, pk).
Proof.
  destruct c as [api | | msgid | s p n]; cbn [Client.message2];
    intros Hc Hnil; try discriminate; cbn [V2.exec Client.offline2];
    unfold bind.
  - now rewrite (G2_nil _ _ pk msgid Hnil).
  - now rewrite (NG2_nil _ _ pk s p n Hnil).
Qed.

Lemma ask2_quiet P c :
  V2.quiet P -> keeps_instance (Direct.ask2 P c).
Proof.
  intros (HCL & HG & HNG).
  destruct c as [api | | msgid | s p n]; cbn [Direct.ask2].
  - intros pk. reflexivity.
  - apply keeps_instance_map, HCL.
  - apply keeps_instance_map, HG.
  - apply keeps_instance_map, HNG.
Qed.

Lemma run2_quiet P cs : forall pk,
  V2.quiet P ->
  forallb Direct.lookup2 cs = true ->
  instance pk = Some P ->
  V2.run cs pk = Direct.asks2 P cs pk.
Proof.
  induction cs as [| c cs IH]; intros pk Hq Hcs Hreg.
  - reflexivity.
  - cbn [forallb] in Hcs. apply andb_prop in Hcs as [Hc Hcs].
    rewrite run2_cons, (exec2_registered P c pk Hc Hreg).
    cbn [Direct.asks2]. unfold bind.
    pose proof (ask2_quiet P c Hq pk) as Hk.
    destruct (Direct.ask2 P c pk) as [r pk1]. cbn [snd] in Hk.
    rewrite (IH pk1 Hq Hcs (eq_trans Hk Hreg)).
    now destruct (Direct.asks2 P cs pk1).
Qed.
End V2Runs.

(** ** The locale library after the specification *)

Lemma split_tag_plain (lang rest : string) :
  SpecLocale.plain lang = true ->
  fst (SpecLocale.split_tag (lang ++ String "-" rest)) = lang.
Proof.
  induction lang as [| c lang IH]; cbn [SpecLocale.plain append]; intros Hp.
  - cbn. now destruct (SpecLocale.split_tag rest).
  - apply andb_prop in Hp as [Hc Hp]. specialize (IH Hp).
    cbn [SpecLocale.split_tag].
    destruct (SpecLocale.split_tag (lang ++ String "-" rest)) as [hd tl].
    apply negb_true_iff in Hc. rewrite Hc. cbn in *. now subst.
Qed.

(** The base of [lang-rest] is [lang]. *)
Lemma base_of_parse (lang rest : string) :
  SpecLocale.plain lang = true -> lang <> "" ->
  SpecLocale.base_string
    (fst (SpecLocale.base (SpecLocale.parse (lang ++ String "-" rest)))) = lang.
Proof.
  intros Hp Hne. pose proof (split_tag_plain lang rest Hp) as Hs.
  unfold SpecLocale.parse, SpecLocale.base.
  destruct (SpecLocale.split_tag (lang ++ String "-" rest)) as [hd tl].
  cbn in *. subst hd. destruct lang; [congruence | reflexivity].
Qed.

Example parse_en_ZA :
  SpecLocale.parse "en-ZA" = SpecLocale.mkTag "en" ["ZA"]
  /\ SpecLocale.parse "en_ZA" = SpecLocale.mkTag "en" ["ZA"]
  /\ SpecLocale.base (SpecLocale.parse "en-ZA") = (Some "en", SpecLocale.Exact)
  /\ SpecLocale.base (SpecLocale.parse "") = (None, SpecLocale.No).
Proof. repeat split. Qed.


(** ** The stub providers *)

Lemma Bang_quiet1 : V1.quiet Stub.Bang.
Proof.
  split; [intros msgid pk | intros s p n pk]; cbn; [reflexivity |].
  now destruct (n =? 1)%Z.
Qed.

Lemma Query_quiet1 : V1.quiet Stub.Query.
Proof. split; [intros msgid pk | intros s p n pk]; reflexivity. Qed.

Lemma Bang_quiet2 : V2.quiet Stub.Bang.
Proof.
  split; [| split]; [intros pk | intros msgid pk | intros s p n pk]; cbn;
    try reflexivity.
  now destruct (n =? 1)%Z.
Qed.

Lemma Query_quiet2 : V2.quiet Stub.Query.
Proof.
  split; [| split]; [intros pk | intros msgid pk | intros s p n pk];
    reflexivity.
Qed.

(** * The claims *)

(** ** Fallbacks of [NG] *)

(** C1.  Version 2: with no provider registered, [NG(s, p, n)] returns [s]
    for every [s], [p] and [n], and leaves the package state as it was. *)
Theorem NG_v2_unregistered :
  forall (Prov World : Type) (A : V2.API Prov World)
         (pk : V2.State Prov World) (s p : string) (n : int),
    instance pk = None ->
    V2.NG s p n pk = (s, pk).
Proof. intros Prov World A pk s p n Hnil. now apply NG2_nil. Qed.

Lemma NG_v2_unregistered_witness :
  instance Stub.fresh2 = None
  /\ V2.NG "file" "files" 1%Z Stub.fresh2 = ("file", Stub.fresh2)
  /\ V2.NG "file" "files" 0%Z Stub.fresh2 = ("file", Stub.fresh2)
  /\ V2.NG "file" "files" 5%Z Stub.fresh2 = ("file", Stub.fresh2)
  /\ V2.NG "file" "files" (-3)%Z Stub.fresh2
     = ("file", Stub.fresh2).
Proof.
  split; [reflexivity |].
  split; [| split; [| split]];
    apply (NG_v2_unregistered Stub.prov Stub.World Stub.table2 Stub.fresh2
             "file" "files");
    reflexivity.
Defined.

(** C2.  Version 1: with no provider registered, [NG(s, p, n)] returns [s]
    when [n] is 1 and [p] for every other [n]; the package state is left as
    it was. *)
Theorem NG_v1_unregistered :
  forall (Prov World : Type) (M : V1.MarkerAPI Prov World)
         (pk : V1.State Prov World) (s p : string) (n : int),
    instance pk = None ->
    (n = 1%Z -> V1.NG s p n pk = (s, pk))
    /\ (n <> 1%Z -> V1.NG s p n pk = (p, pk)).
Proof.
  intros Prov World M pk s p n Hnil.
  rewrite (NG1_nil Prov World pk s p n Hnil). split.
  - intros ->. reflexivity.
  - intros Hn. apply Z.eqb_neq in Hn. now rewrite Hn.
Qed.

Lemma NG_v1_unregistered_witness :
  instance Stub.fresh1 = None
  /\ V1.NG "file" "files" 1%Z Stub.fresh1 = ("file", Stub.fresh1)
  /\ V1.NG "file" "files" 0%Z Stub.fresh1 = ("files", Stub.fresh1)
  /\ V1.NG "file" "files" 2%Z Stub.fresh1 = ("files", Stub.fresh1)
  /\ V1.NG "file" "files" (-1)%Z Stub.fresh1
     = ("files", Stub.fresh1).
Proof.
  split; [reflexivity |].
  split; [| split; [| split]].
  - apply (NG_v1_unregistered Stub.prov Stub.World Stub.table1 Stub.fresh1
             "file" "files" 1%Z); reflexivity.
  - apply (NG_v1_unregistered Stub.prov Stub.World Stub.table1 Stub.fresh1
             "file" "files" 0%Z); [reflexivity | lia].
  - apply (NG_v1_unregistered Stub.prov Stub.World Stub.table1 Stub.fresh1
             "file" "files" 2%Z); [reflexivity | lia].
  - apply (NG_v1_unregistered Stub.prov Stub.World Stub.table1 Stub.fresh1
             "file" "files" (-1)%Z); [reflexivity | lia].
Defined.

(** ** [CurrentLocale] without a provider *)

(** C3.  Version 2: with no provider registered, when [locale.Detect]
    returns an error, [CurrentLocale] returns the constant ["en"].  The result
    is a plain string: there is nothing in it to carry the error. *)
Theorem CurrentLocale_detect_error :
  forall (Prov World : Type) (A : V2.API Prov World) (L : LocaleLib World)
         (pk : V2.State Prov World) (tag : Tag) (e : error) (w' : World),
    instance pk = None ->
    locale_Detect (world pk) = ((tag, Some e), w') ->
    V2.CurrentLocale pk = ("en", mkPkg None w').
Proof.
  intros Prov World A L pk tag e w' Hnil Hdet.
  rewrite (CurrentLocale_nil Prov World pk Hnil), Hdet. reflexivity.
Qed.

Lemma CurrentLocale_detect_error_witness :
  instance Stub.fresh2 = None
  /\ SpecLocale.fails "LANG is not set" ([] : Stub.World)
     = ((SpecLocale.mkTag "" [], Some "LANG is not set"), [])
  /\ @V2.CurrentLocale Stub.prov Stub.World Stub.table2
       (SpecLocale.lib (SpecLocale.fails "LANG is not set")) Stub.fresh2
     = ("en", Stub.fresh2).
Proof.
  split; [reflexivity |]. split; [reflexivity |].
  apply (CurrentLocale_detect_error Stub.prov Stub.World Stub.table2
           (SpecLocale.lib (SpecLocale.fails "LANG is not set")) Stub.fresh2
           (SpecLocale.mkTag "" []) "LANG is not set" []); reflexivity.
Defined.

(** C4.  Version 2: with no provider registered, when [locale.Detect]
    succeeds with a tag, [CurrentLocale] returns the base of the tag as
    text.  With the locale library of the specification that is the leading
    language subtag: [lang] for [lang-rest], and ["en"] for [en-ZA]. *)
Theorem CurrentLocale_detected_base :
  forall (Prov World : Type) (A : V2.API Prov World)
         (detect : Eff World (SpecLocale.tag * option error))
         (pk : V2.State Prov World) (tag : SpecLocale.tag) (w' : World),
    instance pk = None ->
    detect (world pk) = ((tag, None), w') ->
    @V2.CurrentLocale Prov World A (SpecLocale.lib detect) pk
    = (SpecLocale.base_string (fst (SpecLocale.base tag)), mkPkg None w')
    /\ (forall lang rest : string,
          SpecLocale.plain lang = true -> lang <> "" ->
          tag = SpecLocale.parse (lang ++ String "-" rest) ->
          @V2.CurrentLocale Prov World A (SpecLocale.lib detect) pk
          = (lang, mkPkg None w'))
    /\ (tag = SpecLocale.parse "en-ZA" ->
        @V2.CurrentLocale Prov World A (SpecLocale.lib detect) pk
        = ("en", mkPkg None w')).
Proof.
  intros Prov World A detect pk tag w' Hnil Hdet.
  assert (Hcl : @V2.CurrentLocale Prov World A (SpecLocale.lib detect) pk
                = (SpecLocale.base_string (fst (SpecLocale.base tag)),
                   mkPkg None w')).
  { rewrite (@CurrentLocale_nil Prov World A (SpecLocale.lib detect) pk Hnil).
    cbn [locale_Detect SpecLocale.lib]. rewrite Hdet. reflexivity. }
  split; [exact Hcl |]. split.
  - intros lang rest Hp Hne ->. rewrite Hcl. now rewrite base_of_parse.
  - intros ->. rewrite Hcl. reflexivity.
Qed.

Lemma CurrentLocale_detected_base_witness :
  instance Stub.fresh2 = None
  /\ SpecLocale.detects "en-ZA" ([] : Stub.World)
     = ((SpecLocale.parse "en-ZA", None), [])
  /\ @V2.CurrentLocale Stub.prov Stub.World Stub.table2
       (SpecLocale.lib (SpecLocale.detects "en-ZA")) Stub.fresh2
     = ("en", Stub.fresh2).
Proof.
  split; [reflexivity |]. split; [reflexivity |].
  apply (CurrentLocale_detected_base Stub.prov Stub.World Stub.table2
           (SpecLocale.detects "en-ZA")
           Stub.fresh2 (SpecLocale.parse "en-ZA") [] eq_refl eq_refl).
  reflexivity.
Defined.

(** C10.  Version 2: with no provider registered, when [locale.Detect]
    succeeds, [CurrentLocale] returns the text of the first result of
    [Base()] whatever the second result is; the second result is dropped and
    does not lead to the ["en"] fallback. *)
Theorem CurrentLocale_drops_second_of_Base :
  forall (Prov World : Type) (A : V2.API Prov World) (L : LocaleLib World)
         (pk : V2.State Prov World)
         (tag : Tag) (b : Base) (c : Confidence) (w' : World),
    instance pk = None ->
    locale_Detect (world pk) = ((tag, None), w') ->
    Tag_Base tag = (b, c) ->
    V2.CurrentLocale pk = (Base_String b, mkPkg None w').
Proof.
  intros Prov World A L pk tag b c w' Hnil Hdet Hbase.
  rewrite (CurrentLocale_nil Prov World pk Hnil), Hdet, Hbase. reflexivity.
Qed.

Lemma CurrentLocale_drops_second_of_Base_witness :
  instance Stub.fresh2 = None
  /\ SpecLocale.detects "" ([] : Stub.World)
     = ((SpecLocale.mkTag "" [], None), [])
  /\ SpecLocale.base (SpecLocale.mkTag "" []) = (None, SpecLocale.No)
  /\ @V2.CurrentLocale Stub.prov Stub.World Stub.table2
       (SpecLocale.lib (SpecLocale.detects "")) Stub.fresh2
     = ("und", Stub.fresh2).
Proof.
  split; [reflexivity |]. split; [reflexivity |]. split; [reflexivity |].
  apply (CurrentLocale_drops_second_of_Base Stub.prov Stub.World Stub.table2
           (SpecLocale.lib (SpecLocale.detects "")) Stub.fresh2
           (SpecLocale.mkTag "" []) None SpecLocale.No []); reflexivity.
Defined.

(** ** [G] without a provider *)

(** C5.  Both versions: with no provider registered, [G(msgid)] returns
    [msgid] for every string [msgid], and leaves the package state as it
    was. *)
Theorem G_unregistered :
  (forall (Prov World : Type) (M : V1.MarkerAPI Prov World)
          (pk : V1.State Prov World) (msgid : string),
      instance pk = None -> V1.G msgid pk = (msgid, pk))
  /\ (forall (Prov World : Type) (A : V2.API Prov World)
             (pk : V2.State Prov World) (msgid : string),
         instance pk = None -> V2.G msgid pk = (msgid, pk)).
Proof.
  split; intros Prov World T pk msgid Hnil.
  - now apply G1_nil.
  - now apply G2_nil.
Qed.

Lemma G_unregistered_witness :
  (instance Stub.fresh1 = None
   /\ V1.G "Hello" Stub.fresh1 = ("Hello", Stub.fresh1))
  /\ (instance Stub.fresh2 = None
      /\ V2.G "Hello" Stub.fresh2 = ("Hello", Stub.fresh2)).
Proof.
  split; (split; [reflexivity |]).
  - apply (proj1 G_unregistered Stub.prov Stub.World Stub.table1
             Stub.fresh1 "Hello"). reflexivity.
  - apply (proj2 G_unregistered Stub.prov Stub.World Stub.table2
             Stub.fresh2 "Hello"). reflexivity.
Defined.

(** ** Delegation *)

(** C6.  Both versions: with a provider [P] registered, [NG(s, p, n)] is
    the call [P.NG(s, p, n)] and nothing else: the string it returns is the
    one [P.NG] returns and the state after it is the one [P.NG] leaves.  The
    package adds no plural rule of its own. *)
Theorem NG_registered :
  (forall (Prov World : Type) (M : V1.MarkerAPI Prov World)
          (pk : V1.State Prov World) (P : Prov) (s p : string) (n : int),
      instance pk = Some P ->
      V1.NG s p n pk = V1.MarkerAPI_NG P s p n pk)
  /\ (forall (Prov World : Type) (A : V2.API Prov World)
             (pk : V2.State Prov World) (P : Prov) (s p : string) (n : int),
         instance pk = Some P ->
         V2.NG s p n pk = V2.API_NG P s p n pk).
Proof.
  split; intros Prov World T pk P s p n Hreg.
  - now apply NG1_some.
  - now apply NG2_some.
Qed.

Lemma NG_registered_witness :
  (instance (mkPkg (Some Stub.Query) [] : V1.State Stub.prov Stub.World)
   = Some Stub.Query
   /\ V1.NG "file" "files" 1%Z (mkPkg (Some Stub.Query) [])
      = ("files?", mkPkg (Some Stub.Query) ["files"]))
  /\ (instance (mkPkg (Some Stub.Bang) [] : V2.State Stub.prov Stub.World)
      = Some Stub.Bang
      /\ V2.NG "file" "files" 5%Z (mkPkg (Some Stub.Bang) [])
         = ("files!", mkPkg (Some Stub.Bang) ["files"])).
Proof.
  split; (split; [reflexivity |]).
  - apply (proj1 NG_registered Stub.prov Stub.World Stub.table1
             (mkPkg (Some Stub.Query) []) Stub.Query "file" "files" 1%Z
             eq_refl).
  - apply (proj2 NG_registered Stub.prov Stub.World Stub.table2
             (mkPkg (Some Stub.Bang) []) Stub.Bang "file" "files" 5%Z
             eq_refl).
Defined.

(** C9.  Version 2: with a provider [P] registered, [CurrentLocale()] is
    the call [P.CurrentLocale()] and nothing else: the string is returned as
    the provider gave it, not cut down to a base language, and the state
    after it is the one the provider leaves. *)
Theorem CurrentLocale_registered :
  forall (Prov World : Type) (A : V2.API Prov World) (L : LocaleLib World)
         (pk : V2.State Prov World) (P : Prov),
    instance pk = Some P ->
    V2.CurrentLocale pk = V2.API_CurrentLocale P pk.
Proof. intros Prov World A L pk P Hreg. now apply CurrentLocale_some. Qed.

Lemma CurrentLocale_registered_witness :
  instance (mkPkg (Some Stub.Bang) [] : V2.State Stub.prov Stub.World)
  = Some Stub.Bang
  /\ @V2.CurrentLocale Stub.prov Stub.World Stub.table2
       (SpecLocale.lib (SpecLocale.detects "fr-CA"))
       (mkPkg (Some Stub.Bang) [])
     = ("en_ZA!", mkPkg (Some Stub.Bang) ["en_ZA"]).
Proof.
  split; [reflexivity |].
  apply (CurrentLocale_registered Stub.prov Stub.World Stub.table2
           (SpecLocale.lib (SpecLocale.detects "fr-CA"))
           (mkPkg (Some Stub.Bang) []) Stub.Bang eq_refl).
Defined.

(** ** Registration *)

(** C7.  Both versions: [Initialise] with the nil provider returns, and the
    state it leaves is the state with no provider registered and the same
    world.  So whatever a client does next goes as from that state; among
    others [G(msgid)] returns [msgid]. *)
Theorem Initialise_nil_unregisters :
  (forall (Prov World : Type) (M : V1.MarkerAPI Prov World)
          (pk : V1.State Prov World),
      V1.Initialise None pk = (tt, start (world pk))
      /\ (forall msgid : string,
             (V1.Initialise None ;;; V1.G msgid)%eff pk
             = (msgid, start (world pk)))
      /\ (forall cs : list (V1.call Prov),
             V1.run (V1.CallInitialise None :: cs) pk =
             let (rs, pk') := V1.run cs (start (world pk)) in
             (V1.Done :: rs, pk')))
  /\ (forall (Prov World : Type) (A : V2.API Prov World)
             (L : LocaleLib World) (pk : V2.State Prov World),
         V2.Initialise None pk = (tt, start (world pk))
         /\ (forall msgid : string,
                (V2.Initialise None ;;; V2.G msgid)%eff pk
                = (msgid, start (world pk)))
         /\ (forall cs : list (V2.call Prov),
                V2.run (V2.CallInitialise None :: cs) pk =
                let (rs, pk') := V2.run cs (start (world pk)) in
                (V2.Done :: rs, pk'))).
Proof.
  split.
  - intros Prov World M pk. split; [reflexivity |]. split.
    + intros msgid. unfold bind. rewrite Initialise1_eq.
      now apply G1_nil.
    + intros cs. now rewrite run1_cons, exec1_Initialise.
  - intros Prov World A L pk. split; [reflexivity |]. split.
    + intros msgid. unfold bind. rewrite Initialise2_eq.
      now apply G2_nil.
    + intros cs. now rewrite run2_cons, exec2_Initialise.
Qed.




(** ** The scenarios of the specification *)

(** Slot empty, [G("Hello")], then [Initialise] with the provider whose [G]
    appends ["!"], then [G("Hello")] again. *)
Example scenario_hello :
  V1.run [V1.CallG "Hello"; V1.CallInitialise (Some Stub.Bang);
          V1.CallG "Hello"] Stub.fresh1
  = ([V1.Returned "Hello"; V1.Done; V1.Returned "Hello!"],
     mkPkg (Some Stub.Bang) ["Hello"]).
Proof. reflexivity. Qed.

(** The fallbacks of [NG] in the two versions differ at [n = 5]. *)
Example scenario_files :
  fst (V1.NG "file" "files" 1%Z Stub.fresh1) = "file"
  /\ fst (V1.NG "file" "files" 5%Z Stub.fresh1) = "files"
  /\ fst (V2.NG "file" "files" 5%Z Stub.fresh2) = "file".
Proof. repeat split. Qed.

(** A provider is unregistered again by [Initialise] with nil. *)
Example scenario_unregister :
  @V2.run Stub.prov Stub.World Stub.table2
    (SpecLocale.lib (SpecLocale.detects "en-ZA"))
    [V2.CallInitialise (Some Stub.Bang); V2.CallG "Hello";
     V2.CallInitialise None; V2.CallG "Hello"; V2.CallCurrentLocale]
    Stub.fresh2
  = ([V2.Done; V2.Returned "Hello!"; V2.Done; V2.Returned "Hello";
      V2.Returned "en"],
     start ["Hello"]).
Proof. reflexivity. Qed.

(** * Further properties of the two packages *)

(** X1.  Both versions: with a provider [P] registered, [G(msgid)] is the
    call [P.G(msgid)] and nothing else: the string returned is the
    provider's and the state after it is the one the provider leaves. *)
Theorem G_registered :
  (forall (Prov World : Type) (M : V1.MarkerAPI Prov World)
          (pk : V1.State Prov World) (P : Prov) (msgid : string),
      instance pk = Some P ->
      V1.G msgid pk = V1.MarkerAPI_G P msgid pk)
  /\ (forall (Prov World : Type) (A : V2.API Prov World)
             (pk : V2.State Prov World) (P : Prov) (msgid : string),
         instance pk = Some P ->
         V2.G msgid pk = V2.API_G P msgid pk).
Proof.
  split; intros Prov World T pk P msgid Hreg.
  - now apply G1_some.
  - now apply G2_some.
Qed.

Lemma G_registered_witness :
  (instance (mkPkg (Some Stub.Bang) [] : V1.State Stub.prov Stub.World)
   = Some Stub.Bang
   /\ V1.G "Hello" (mkPkg (Some Stub.Bang) [])
      = ("Hello!", mkPkg (Some Stub.Bang) ["Hello"]))
  /\ (instance (mkPkg (Some Stub.Leaver) [] : V2.State Stub.prov Stub.World)
      = Some Stub.Leaver
      /\ V2.G "Hello" (mkPkg (Some Stub.Leaver) [])
         = ("Hello!", mkPkg None ["Hello"])).
Proof.
  split; (split; [reflexivity |]).
  - apply (proj1 G_registered Stub.prov Stub.World Stub.table1
             (mkPkg (Some Stub.Bang) []) Stub.Bang "Hello" eq_refl).
  - apply (proj2 G_registered Stub.prov Stub.World Stub.table2
             (mkPkg (Some Stub.Leaver) []) Stub.Leaver "Hello" eq_refl).
Defined.



(** X3.  With no provider registered, message lookups are pure: a sequence
    of [G] and [NG] calls leaves the whole state, world included, as it was.
    Version 1 answers [msgid], or [msgidPlural] when [n] is not 1; version 2
    answers [msgid]. *)
Theorem run_unregistered :
  (forall (Prov World : Type) (M : V1.MarkerAPI Prov World)
          (cs : list (V1.call Prov)) (pk : V1.State Prov World),
      instance pk = None ->
      forallb Direct.lookup1 cs = true ->
      V1.run cs pk = (map Client.offline1 cs, pk))
  /\ (forall (Prov World : Type) (A : V2.API Prov World)
             (L : LocaleLib World)
             (cs : list (V2.call Prov)) (pk : V2.State Prov World),
         instance pk = None ->
         forallb Client.message2 cs = true ->
         V2.run cs pk = (map Client.offline2 cs, pk)).
Proof.
  split.
  - intros Prov World M cs pk Hnil. induction cs as [| c cs IH]; intros Hcs.
    + reflexivity.
    + cbn [forallb] in Hcs. apply andb_prop in Hcs as [Hc Hcs].
      rewrite run1_cons, (exec1_unregistered Prov World c pk Hc Hnil).
      now rewrite (IH Hcs).
  - intros Prov World A L cs pk Hnil. induction cs as [| c cs IH]; intros Hcs.
    + reflexivity.
    + cbn [forallb] in Hcs. apply andb_prop in Hcs as [Hc Hcs].
      rewrite run2_cons, (exec2_unregistered Prov World c pk Hc Hnil).
      now rewrite (IH Hcs).
Qed.

Lemma run_unregistered_witness :
  (instance Stub.fresh1 = None
   /\ forallb (@Direct.lookup1 Stub.prov)
        [V1.CallG "Hello"; V1.CallNG "file" "files" 5%Z] = true
   /\ V1.run [V1.CallG "Hello"; V1.CallNG "file" "files" 5%Z] Stub.fresh1
      = ([V1.Returned "Hello"; V1.Returned "files"], Stub.fresh1))
  /\ (instance Stub.fresh2 = None
      /\ forallb (@Client.message2 Stub.prov)
           [V2.CallG "Hello"; V2.CallNG "file" "files" 5%Z] = true
      /\ @V2.run Stub.prov Stub.World Stub.table2
           (SpecLocale.lib (SpecLocale.fails "no locale"))
           [V2.CallG "Hello"; V2.CallNG "file" "files" 5%Z] Stub.fresh2
         = ([V2.Returned "Hello"; V2.Returned "file"], Stub.fresh2)).
Proof.
  split; (split; [reflexivity |]; split; [reflexivity |]).
  - apply (proj1 run_unregistered Stub.prov Stub.World Stub.table1
             [V1.CallG "Hello"; V1.CallNG "file" "files" 5%Z] Stub.fresh1
             eq_refl eq_refl).
  - apply (proj2 run_unregistered Stub.prov Stub.World Stub.table2
             (SpecLocale.lib (SpecLocale.fails "no locale"))
             [V2.CallG "Hello"; V2.CallNG "file" "files" 5%Z] Stub.fresh2
             eq_refl eq_refl).
Defined.

(** X4.  With no provider registered in either version, [NG(s, p, n)] of
    version 1 and of version 2 return the same string exactly when [n] is 1
    or the two forms are the same text. *)
Theorem NG_versions_agree :
  forall (Prov World : Type) (M : V1.MarkerAPI Prov World)
         (A : V2.API Prov World)
         (pk1 : V1.State Prov World) (pk2 : V2.State Prov World)
         (s p : string) (n : int),
    instance pk1 = None ->
    instance pk2 = None ->
    fst (V1.NG s p n pk1) = fst (V2.NG s p n pk2) <-> n = 1%Z \/ p = s.
Proof.
  intros Prov World M A pk1 pk2 s p n Hnil1 Hnil2.
  rewrite (NG1_nil Prov World pk1 s p n Hnil1).
  rewrite (NG2_nil Prov World pk2 s p n Hnil2).
  cbn [fst]. destruct (Z.eqb_spec n 1) as [Hn | Hn].
  - split; [now left | reflexivity].
  - split; [now right | intros [H1 | Hp]; [contradiction | exact Hp]].
Qed.

Lemma NG_versions_agree_witness :
  instance Stub.fresh1 = None
  /\ instance Stub.fresh2 = None
  /\ fst (V1.NG "file" "files" 5%Z Stub.fresh1)
     <> fst (V2.NG "file" "files" 5%Z Stub.fresh2)
  /\ fst (V1.NG "sheep" "sheep" 5%Z Stub.fresh1)
     = fst (V2.NG "sheep" "sheep" 5%Z Stub.fresh2).
Proof.
  split; [reflexivity |]. split; [reflexivity |]. split.
  - intros Heq.
    apply (NG_versions_agree Stub.prov Stub.World Stub.table1 Stub.table2
             Stub.fresh1 Stub.fresh2 "file" "files" 5%Z eq_refl eq_refl)
      in Heq.
    destruct Heq as [Hn | Hp]; discriminate.
  - apply (NG_versions_agree Stub.prov Stub.World Stub.table1 Stub.table2
             Stub.fresh1 Stub.fresh2 "sheep" "sheep" 5%Z eq_refl eq_refl).
    now right.
Defined.




